(** * The log viewer of trailarr: [LogsComponent]

    A shallow embedding of
    [frontend/src/app/logs/logs.component.ts]: the component's fields
    become a record, its methods become functions on that record, and
    the two callbacks the framework invokes (completion of the log
    fetch, a debounced search value) become the events of a small
    transition system. *)

From Stdlib Require Import NArith String Ascii Lia.
From stdpp Require Import base decidable numbers list.

Local Open Scope N_scope.
Local Open Scope nat_scope.

(** ** JavaScript strings

    A JavaScript string is a finite sequence of UTF-16 code units;
    [s.length] is the number of code units and [===] on strings
    compares the two sequences. *)

Definition code_unit : Type := N.
Definition jsstring : Type := list code_unit.

(** The code units of a literal whose characters are all below U+0100. *)
Definition utf16 (s : string) : jsstring :=
  map N_of_ascii (list_ascii_of_string s).
Arguments utf16 s%_string.

(** [WhiteSpace] and [LineTerminator] of ECMAScript, the code points
    that [String.prototype.trim] strips. All of them are in the basic
    plane, so each is one code unit. *)
Definition isWhiteSpace (c : code_unit) : bool :=
  ((c =? 0x09) || (c =? 0x0A) || (c =? 0x0B) || (c =? 0x0C) || (c =? 0x0D)
   || (c =? 0x20) || (c =? 0xA0) || (c =? 0x1680)
   || ((0x2000 <=? c) && (c <=? 0x200A))
   || (c =? 0x2028) || (c =? 0x2029) || (c =? 0x202F) || (c =? 0x205F)
   || (c =? 0x3000) || (c =? 0xFEFF))%N.

Fixpoint trimStart (s : jsstring) : jsstring :=
  match s with
  | c :: s' => if isWhiteSpace c then trimStart s' else s
  | [] => []
  end.

Definition trimEnd (s : jsstring) : jsstring := rev (trimStart (rev s)).

(** [s.trim()] *)
Definition trim (s : jsstring) : jsstring := trimEnd (trimStart s).

(** [s.startsWith(t)] at position 0. *)
Fixpoint startsWith (s t : jsstring) {struct t} : bool :=
  match t, s with
  | [], _ => true
  | _ :: _, [] => false
  | d :: t', c :: s' => (c =? d)%N && startsWith s' t'
  end.

(** [s.includes(t)]: [t] occurs in [s] at some position. *)
Fixpoint includes (s t : jsstring) : bool :=
  startsWith s t ||
  match s with
  | [] => false
  | _ :: s' => includes s' t
  end.

(** ** The operators on the search box

    The constructor pipes [searchForm.valueChanges] through
    [debounceTime(400)] and [distinctUntilChanged()]. Debouncing only
    decides which of the typed values get through, and when; the lists
    below hold the values that leave it, in order.
    [distinctUntilChanged()] passes the first value, and then every
    value that is not [===] to the last one it passed. *)
Fixpoint distinctUntilChanged_from (previousKey : option jsstring)
    (values : list jsstring) : list jsstring :=
  match values with
  | [] => []
  | value :: values' =>
      if decide (previousKey = Some value)
      then distinctUntilChanged_from previousKey values'
      else value :: distinctUntilChanged_from (Some value) values'
  end.

Definition distinctUntilChanged (values : list jsstring) : list jsstring :=
  distinctUntilChanged_from None values.

(** ** The component *)

Section Component.
(** The [Logs] interface lives in [models/logs]; the component reads
    one field of it, [raw_log]. *)
Variable Logs : Type.
Variable raw_log : Logs → jsstring.

(** [String.prototype.toLowerCase], the host's Unicode lower-case
    mapping. *)
Variable toLowerCase : jsstring → jsstring.

(** The fields of the class, in declaration order; [searchForm] only
    feeds [onSearch] and carries no state the methods read. *)
Record LogsComponent : Type := mkLogsComponent {
  title : jsstring;
  isLoading : bool;
  all_logs : list Logs;
  searchQuery : jsstring;
  filtered_logs : list Logs
}.

(** The field initialisers. *)
Definition new_LogsComponent : LogsComponent :=
  {| title := utf16 "Logs";
     isLoading := true;
     all_logs := [];
     searchQuery := [];
     filtered_logs := [] |}.

(** [ngOnInit], up to the subscription. *)
Definition ngOnInit (this : LogsComponent) : LogsComponent :=
  {| title := title this;
     isLoading := true;
     all_logs := all_logs this;
     searchQuery := searchQuery this;
     filtered_logs := filtered_logs this |}.

(** The callback [ngOnInit] subscribes to [getLogs()]; it runs when
    the fetch delivers [logs]. *)
Definition getLogs_next (logs : list Logs) (this : LogsComponent)
  : LogsComponent :=
  {| title := title this;
     isLoading := false;
     all_logs := logs;
     searchQuery := searchQuery this;
     filtered_logs := logs |}.

(** The predicate of the [filter] callback in [onSearch]. *)
Definition matches (query : jsstring) (log : Logs) : bool :=
  includes (toLowerCase (raw_log log)) (toLowerCase query).

(** [onSearch(query)] *)
Definition onSearch (this : LogsComponent) (query : jsstring)
  : LogsComponent :=
  if decide (length query < 3) then
    {| title := title this;
       isLoading := isLoading this;
       all_logs := all_logs this;
       searchQuery := searchQuery this;
       filtered_logs := all_logs this |}
  else if decide (trim query = searchQuery this) then
    this
  else
    let this1 :=
      {| title := title this;
         isLoading := isLoading this;
         all_logs := all_logs this;
         searchQuery := query;
         filtered_logs := filtered_logs this |} in
    {| title := title this1;
       isLoading := isLoading this1;
       all_logs := all_logs this1;
       searchQuery := searchQuery this1;
       filtered_logs :=
         filter (λ log, matches (searchQuery this1) log) (all_logs this1) |}.

(** The parameter's default: [onSearch()] is [onSearch('')]. *)
Definition onSearch_opt (this : LogsComponent) (query : option jsstring)
  : LogsComponent :=
  onSearch this (default [] query).

(** What the framework can do to a component. *)
Inductive event : Type :=
| NgOnInit
| GetLogsNext (logs : list Logs)
| OnSearch (query : jsstring).

Definition step (this : LogsComponent) (e : event) : LogsComponent :=
  match e with
  | NgOnInit => ngOnInit this
  | GetLogsNext logs => getLogs_next logs this
  | OnSearch query => onSearch this query
  end.

Definition run (this : LogsComponent) (es : list event) : LogsComponent :=
  foldl step this es.

(** [query] reaches the recomputation in [onSearch]: it passes the
    length test and its trimmed form is not the stored query. *)
Definition accepted (this : LogsComponent) (query : jsstring) : Prop :=
  3 ≤ length query ∧ trim query ≠ searchQuery this.

(** The result list is the full list with some records left out. *)
Definition filtered_within (this : LogsComponent) : Prop :=
  filtered_logs this `sublist_of` all_logs this.

(** The stored query is the initial one or passed the length test. *)
Definition stored_query_long (this : LogsComponent) : Prop :=
  searchQuery this = [] ∨ 3 ≤ length (searchQuery this).

(** [onSearch] without the test against the stored query: every
    call that passes the length test recomputes. *)
Definition onSearch_recompute (this : LogsComponent) (query : jsstring)
  : LogsComponent :=
  if decide (length query < 3) then
    {| title := title this;
       isLoading := isLoading this;
       all_logs := all_logs this;
       searchQuery := searchQuery this;
       filtered_logs := all_logs this |}
  else
    {| title := title this;
       isLoading := isLoading this;
       all_logs := all_logs this;
       searchQuery := query;
       filtered_logs := filter (λ log, matches query log) (all_logs this) |}.

(** The subscription of the constructor: each value that leaves
    [distinctUntilChanged()] is handed to [onSearch]. *)
Definition searchForm_subscribe (this : LogsComponent)
    (values : list jsstring) : LogsComponent :=
  foldl onSearch this (distinctUntilChanged values).

(** The list on display is the full list or the matches of the stored
    query. *)
Definition shown_consistent (this : LogsComponent) : Prop :=
  filtered_logs this = all_logs this
  ∨ filtered_logs this
      = filter (λ log, matches (searchQuery this) log) (all_logs this).

End Component.

Arguments title {Logs} _.
Arguments isLoading {Logs} _.
Arguments all_logs {Logs} _.
Arguments searchQuery {Logs} _.
Arguments filtered_logs {Logs} _.
Arguments new_LogsComponent {Logs}.
Arguments ngOnInit {Logs} this.
Arguments getLogs_next {Logs} logs this.
Arguments matches {Logs} raw_log toLowerCase query log.
Arguments onSearch {Logs} raw_log toLowerCase this query.
Arguments onSearch_opt {Logs} raw_log toLowerCase this query.
Arguments accepted {Logs} this query.
Arguments filtered_within {Logs} this.
Arguments stored_query_long {Logs} this.
Arguments onSearch_recompute {Logs} raw_log toLowerCase this query.
Arguments searchForm_subscribe {Logs} raw_log toLowerCase this values.
Arguments shown_consistent {Logs} raw_log toLowerCase this.
Arguments NgOnInit {Logs}.
Arguments GetLogsNext {Logs} logs.
Arguments OnSearch {Logs} query.
Arguments step {Logs} raw_log toLowerCase this e.
Arguments run {Logs} raw_log toLowerCase this es.

(** ** A concrete host

    The lower-case mapping restricted to Basic Latin: [A]..[Z] go to
    [a]..[z], every other code unit is kept. On strings of Basic Latin
    characters this is what [toLowerCase] computes. *)
Definition toLowerCase_latin (s : jsstring) : jsstring :=
  map (λ c : code_unit,
         if ((0x41 <=? c) && (c <=? 0x5A))%N then (c + 0x20)%N else c) s.

(** Modelled from the spec: the [Logs] interface of [models/logs] is
    not among the sources; the spec's LogRecord is a record with at
    least the free-text field [raw_log], the one field the component
    reads. *)
Record LogLine : Type := { line_raw_log : jsstring }.

Definition log (s : string) : LogLine := {| line_raw_log := utf16 s |}.
Arguments log s%_string.

Definition onSearch_latin := onSearch line_raw_log toLowerCase_latin.
Definition onSearch_recompute_latin :=
  onSearch_recompute line_raw_log toLowerCase_latin.

(** A component whose fetch has delivered [logs]. *)
Definition fresh (logs : list LogLine) : LogsComponent LogLine :=
  getLogs_next logs (ngOnInit new_LogsComponent).

(** The result list after a fetch of [logs] and one search. *)
Definition search1 (logs : list LogLine) (query : string) : list LogLine :=
  filtered_logs (onSearch_latin (fresh logs) (utf16 query)).
Arguments search1 logs query%_string.

Definition scenario_logs : list LogLine :=
  [log "INFO start"; log "ERROR disk full"; log "INFO stop"].

(** ** Strings *)

Lemma startsWith_spec (s t : jsstring) :
  startsWith s t = true ↔ ∃ post, s = t ++ post.
Proof.
  revert s. induction t as [|d t IH]; intros s; simpl.
  - split; [intros _; by exists s | done].
  - destruct s as [|c s].
    + split; [done | intros [post Hpost]; discriminate].
    + rewrite andb_true_iff, N.eqb_eq, IH. split.
      * intros [-> [post ->]]. by exists post.
      * intros [post Hpost]. injection Hpost as -> ->. eauto.
Qed.

(** [includes] is plain containment of a contiguous run of code units. *)
Lemma includes_spec (s t : jsstring) :
  includes s t = true ↔ ∃ pre post, s = pre ++ t ++ post.
Proof.
  induction s as [|c s IH]; simpl.
  - rewrite orb_false_r, startsWith_spec. split.
    + intros [post Hpost]. by exists [], post.
    + intros [pre [post Hpost]]. destruct pre; [by exists post | discriminate].
  - rewrite orb_true_iff, startsWith_spec, IH. split.
    + intros [[post Hpost] | [pre [post ->]]].
      * by exists [], post.
      * by exists (c :: pre), post.
    + intros [pre [post Hpost]]. destruct pre as [|c' pre].
      * left. by exists post.
      * right. injection Hpost as -> ->. eauto.
Qed.

Lemma length_trimStart (s : jsstring) : length (trimStart s) ≤ length s.
Proof.
  induction s as [|c s IH]; simpl; [lia|].
  destruct (isWhiteSpace c); simpl; lia.
Qed.

(** Trimming never lengthens: a query whose trimmed form has three
    code units or more passes the length test of [onSearch]. *)
Lemma length_trim (s : jsstring) : length (trim s) ≤ length s.
Proof.
  unfold trim, trimEnd. rewrite length_rev.
  etransitivity; [apply length_trimStart|].
  rewrite length_rev. apply length_trimStart.
Qed.

Lemma toLowerCase_latin_idem (s : jsstring) :
  toLowerCase_latin (toLowerCase_latin s) = toLowerCase_latin s.
Proof.
  unfold toLowerCase_latin. rewrite map_map. apply map_ext. intros c.
  destruct ((0x41 <=? c) && (c <=? 0x5A))%N eqn:Hc; [|by rewrite Hc].
  apply andb_true_iff in Hc as [H1 H2].
  apply N.leb_le in H1, H2.
  replace ((0x41 <=? c + 0x20) && (c + 0x20 <=? 0x5A))%N with false; [done|].
  symmetry. apply andb_false_iff. right. apply N.leb_gt. lia.
Qed.

Lemma includes_trans (a b c : jsstring) :
  includes a b = true → includes b c = true → includes a c = true.
Proof.
  rewrite !includes_spec.
  intros [p [q ->]] [p' [q' ->]].
  exists (p ++ p'), (q' ++ q). by rewrite <- !app_assoc.
Qed.

Lemma trimStart_blank (s : jsstring) :
  forallb isWhiteSpace s = true → trimStart s = [].
Proof.
  induction s as [|c s IH]; simpl; [done|].
  intros [Hc Hs]%andb_true_iff. rewrite Hc. by apply IH.
Qed.

(** A string of white space only trims to the empty string. *)
Lemma trim_blank (s : jsstring) :
  forallb isWhiteSpace s = true → trim s = [].
Proof. intros Hs. unfold trim. by rewrite trimStart_blank. Qed.

Lemma trimStart_idem (s : jsstring) : trimStart (trimStart s) = trimStart s.
Proof.
  induction s as [|c s IH]; simpl; [done|].
  destruct (isWhiteSpace c) eqn:Hc; [done|]. simpl. by rewrite Hc.
Qed.

Lemma trimStart_head (s : jsstring) :
  trimStart s = [] ∨ ∃ c t, trimStart s = c :: t ∧ isWhiteSpace c = false.
Proof.
  induction s as [|c s IH]; simpl; [by left|].
  destruct (isWhiteSpace c) eqn:Hc; [done|]. right. eauto.
Qed.

Lemma trimStart_snoc (s : jsstring) (c : code_unit) :
  isWhiteSpace c = false → ∃ s', trimStart (s ++ [c]) = s' ++ [c].
Proof.
  intros Hc. induction s as [|a s IH]; simpl.
  - rewrite Hc. by exists [].
  - destruct (isWhiteSpace a); [done|]. by exists (a :: s).
Qed.

Lemma trimEnd_head (c : code_unit) (t : jsstring) :
  isWhiteSpace c = false → ∃ t', trimEnd (c :: t) = c :: t'.
Proof.
  intros Hc. unfold trimEnd. simpl.
  destruct (trimStart_snoc (rev t) c Hc) as [s' ->].
  exists (rev s'). by rewrite rev_unit.
Qed.

Lemma trimEnd_idem (s : jsstring) : trimEnd (trimEnd s) = trimEnd s.
Proof. unfold trimEnd. by rewrite rev_involutive, trimStart_idem. Qed.

(** Trimming a trimmed string changes nothing. *)
Lemma trim_idem (s : jsstring) : trim (trim s) = trim s.
Proof.
  unfold trim. destruct (trimStart_head s) as [-> | [c [t [-> Hc]]]]; [done|].
  destruct (trimEnd_head c t Hc) as [t' Ht'].
  rewrite Ht' at 1. simpl. rewrite Hc, <- Ht'. apply trimEnd_idem.
Qed.

Lemma distinctUntilChanged_from_head (values : list jsstring) :
  ∀ previousKey value,
    head (distinctUntilChanged_from previousKey values) = Some value →
    previousKey ≠ Some value.
Proof.
  induction values as [|v values IH]; intros prev value; simpl; [done|].
  destruct (decide (prev = Some v)) as [Heq | Hne]; [by apply IH|].
  simpl. by intros [= <-].
Qed.

Lemma distinctUntilChanged_from_adjacent (values : list jsstring) :
  ∀ previousKey i (v w : jsstring),
    distinctUntilChanged_from previousKey values !! i = Some v →
    distinctUntilChanged_from previousKey values !! S i = Some w →
    v ≠ w.
Proof.
  induction values as [|x values IH]; intros prev i v w; simpl; [done|].
  destruct (decide (prev = Some x)) as [Heq | Hne]; [by apply IH|].
  destruct i as [|i]; simpl.
  - intros [= <-] Hw Hvw. subst w.
    eapply distinctUntilChanged_from_head; [|reflexivity].
    by rewrite head_lookup.
  - by apply IH.
Qed.

Lemma distinctUntilChanged_from_sublist (values : list jsstring) :
  ∀ previousKey,
    distinctUntilChanged_from previousKey values `sublist_of` values.
Proof.
  induction values as [|x values IH]; intros prev; simpl; [done|].
  destruct (decide (prev = Some x)).
  - by apply sublist_cons.
  - by apply sublist_skip.
Qed.

Lemma filter_sublist_impl {A} (P Q : A → Prop)
    `{!∀ x, Decision (P x)} `{!∀ x, Decision (Q x)} (l : list A) :
  (∀ x, P x → Q x) → filter P l `sublist_of` filter Q l.
Proof.
  intros HPQ. induction l as [|x l IH]; [done|].
  rewrite !filter_cons.
  destruct (decide (P x)) as [HP | HP], (decide (Q x)) as [HQ | HQ].
  - by apply sublist_skip.
  - by destruct HQ; apply HPQ.
  - by apply sublist_cons.
  - done.
Qed.

(** ** The three paths of [onSearch] *)

Section Properties.
Context {Logs : Type}.
Variable raw_log : Logs → jsstring.
Variable toLowerCase : jsstring → jsstring.

Implicit Types (this : LogsComponent Logs) (query : jsstring).
Implicit Types (logs : list Logs) (es : list (event Logs)).

Lemma onSearch_unfold this query :
  onSearch raw_log toLowerCase this query =
    if decide (length query < 3) then
      mkLogsComponent Logs (title this) (isLoading this) (all_logs this)
        (searchQuery this) (all_logs this)
    else if decide (trim query = searchQuery this) then this
    else
      mkLogsComponent Logs (title this) (isLoading this) (all_logs this)
        query
        (filter (λ log, matches raw_log toLowerCase query log)
           (all_logs this)).
Proof. reflexivity. Qed.

Lemma run_cons this e es :
  run raw_log toLowerCase this (e :: es) =
    run raw_log toLowerCase (step raw_log toLowerCase this e) es.
Proof. reflexivity. Qed.

Lemma run_nil this : run raw_log toLowerCase this [] = this.
Proof. reflexivity. Qed.

Lemma onSearch_recompute_unfold this query :
  onSearch_recompute raw_log toLowerCase this query =
    if decide (length query < 3) then
      mkLogsComponent Logs (title this) (isLoading this) (all_logs this)
        (searchQuery this) (all_logs this)
    else
      mkLogsComponent Logs (title this) (isLoading this) (all_logs this)
        query
        (filter (λ log, matches raw_log toLowerCase query log)
           (all_logs this)).
Proof. reflexivity. Qed.

Local Abbreviation onSearch := (onSearch raw_log toLowerCase).
Local Abbreviation onSearch_recompute :=
  (onSearch_recompute raw_log toLowerCase).
Local Abbreviation step := (step raw_log toLowerCase).
Local Abbreviation run := (run raw_log toLowerCase).

Lemma onSearch_short this query :
  length query < 3 →
  onSearch this query =
    mkLogsComponent Logs (title this) (isLoading this) (all_logs this)
      (searchQuery this) (all_logs this).
Proof. intros Hlen. rewrite onSearch_unfold. by rewrite decide_True. Qed.

Lemma onSearch_same this query :
  3 ≤ length query → trim query = searchQuery this →
  onSearch this query = this.
Proof.
  intros Hlen Heq. rewrite onSearch_unfold.
  rewrite decide_False by lia. by rewrite decide_True.
Qed.

Lemma onSearch_accepted this query :
  accepted this query →
  onSearch this query =
    mkLogsComponent Logs (title this) (isLoading this) (all_logs this)
      query
      (filter (λ log, matches raw_log toLowerCase query log) (all_logs this)).
Proof.
  intros [Hlen Hne]. rewrite onSearch_unfold.
  rewrite decide_False by lia. by rewrite decide_False.
Qed.

(** Every call takes exactly one of the three paths. *)
Lemma onSearch_cases this query :
  length query < 3 ∨
  (3 ≤ length query ∧ trim query = searchQuery this) ∨
  accepted this query.
Proof.
  unfold accepted.
  destruct (decide (length query < 3)); [by left | right].
  destruct (decide (trim query = searchQuery this)); [left | right];
    split; auto; lia.
Qed.

Ltac onSearch_paths this query :=
  destruct (onSearch_cases this query) as [?Hshort | [[?Hlen ?Hsame] | ?Hacc]];
  [ rewrite (onSearch_short this query) by assumption
  | rewrite (onSearch_same this query) by assumption
  | rewrite (onSearch_accepted this query) by assumption ].

(** ** Invariants of the transition system *)

Lemma filtered_within_step this e :
  filtered_within this → filtered_within (step this e).
Proof.
  unfold filtered_within. intros Hsub. destruct e as [|logs|query]; simpl.
  - done.
  - done.
  - onSearch_paths this query; simpl; [done | done | apply sublist_filter].
Qed.

Lemma filtered_within_run es : ∀ this,
  filtered_within this → filtered_within (run this es).
Proof.
  induction es as [|e es IH]; intros this Hsub; [done|].
  rewrite run_cons. apply IH. by apply filtered_within_step.
Qed.

Lemma all_logs_onSearch this query :
  all_logs (onSearch this query) = all_logs this.
Proof. onSearch_paths this query; done. Qed.

Lemma all_logs_searches qs : ∀ this,
  all_logs (run this (map OnSearch qs)) = all_logs this.
Proof.
  induction qs as [|q qs IH]; intros this; [done|].
  rewrite fmap_cons, run_cons, IH. apply all_logs_onSearch.
Qed.

Lemma stored_query_long_step this e :
  stored_query_long this → stored_query_long (step this e).
Proof.
  unfold stored_query_long. intros Hinv. destruct e as [|logs|query]; simpl.
  - done.
  - done.
  - onSearch_paths this query; simpl; [done | done |].
    right. by destruct Hacc.
Qed.

Lemma stored_query_long_run es : ∀ this,
  stored_query_long this → stored_query_long (run this es).
Proof.
  induction es as [|e es IH]; intros this Hinv; [done|].
  rewrite run_cons. apply IH. by apply stored_query_long_step.
Qed.

Lemma onSearch_idem this query :
  onSearch (onSearch this query) query = onSearch this query.
Proof.
  destruct (onSearch_cases this query) as [Hshort | [[Hlen Hsame] | Hacc]].
  - rewrite (onSearch_short this query) by done.
    by rewrite onSearch_short.
  - rewrite (onSearch_same this query) by done.
    by rewrite onSearch_same.
  - rewrite (onSearch_accepted this query) by done.
    destruct Hacc as [Hlen Hne].
    set (this' := mkLogsComponent Logs _ _ _ _ _).
    destruct (decide (trim query = query)) as [Htrim | Htrim].
    + by rewrite onSearch_same.
    + by rewrite onSearch_accepted.
Qed.

Lemma elem_of_accepted this query (r : Logs) :
  accepted this query →
  r ∈ filtered_logs (onSearch this query) ↔
    r ∈ all_logs this ∧
    ∃ pre post, toLowerCase (raw_log r) = pre ++ toLowerCase query ++ post.
Proof.
  intros Hacc. rewrite onSearch_accepted by done. simpl.
  rewrite list_elem_of_filter. unfold matches.
  rewrite Is_true_true, includes_spec. tauto.
Qed.

Lemma filtered_logs_short this query :
  length query < 3 → filtered_logs (onSearch this query) = all_logs this.
Proof. intros Hlen. by rewrite onSearch_short. Qed.

(** [onSearch()] takes the short path. *)
Lemma onSearch_default this :
  filtered_logs (onSearch_opt raw_log toLowerCase this None)
    = all_logs this.
Proof. unfold onSearch_opt. apply filtered_logs_short. simpl. lia. Qed.

(** ** The search contract *)

(** C1, as amended: a query of fewer than three code units as passed
    in (not trimmed), the empty one included, makes [onSearch] show
    the full list [all_logs], whatever was shown before. *)
Theorem short_query_shows_all this query :
  length query < 3 →
  filtered_logs (onSearch this query) = all_logs this.
Proof. intros Hlen. by rewrite onSearch_short. Qed.

(** C2: a query that passes the length test and whose trimmed form is
    not the stored query makes [onSearch] keep exactly the records of
    [all_logs] whose lower-cased [raw_log] contains the lower-cased
    query, in the order of [all_logs]; on the three-line scenario the
    query [error] keeps the one line [ERROR disk full]. *)
Theorem accepted_query_filters :
  (∀ this query,
     accepted this query →
     filtered_logs (onSearch this query) =
       filter (λ r, includes (toLowerCase (raw_log r)) (toLowerCase query))
         (all_logs this)
     ∧ filtered_logs (onSearch this query) `sublist_of` all_logs this
     ∧ ∀ r, r ∈ filtered_logs (onSearch this query) ↔
            r ∈ all_logs this ∧
            ∃ pre post,
              toLowerCase (raw_log r) = pre ++ toLowerCase query ++ post)
  ∧ search1 scenario_logs "error" = [log "ERROR disk full"].
Proof.
  split; [|by vm_compute].
  intros this query Hacc. split; [|split].
  - by rewrite onSearch_accepted.
  - rewrite onSearch_accepted by done. apply sublist_filter.
  - intros r. by apply elem_of_accepted.
Qed.

(** C3: once the fetch has delivered [logs], after any sequence of
    [onSearch] calls [all_logs] is still [logs] and [filtered_logs]
    is a sub-sequence of it: no foreign record, order kept. The same
    holds of every state the component reaches from its initial one,
    with any interleaving of fetch completions and searches. *)
Theorem filtered_logs_subsequence :
  (∀ this logs (qs : list jsstring),
     let final := run (getLogs_next logs this) (map OnSearch qs) in
     all_logs final = logs
     ∧ filtered_logs final `sublist_of` logs
     ∧ ∀ r, r ∈ filtered_logs final → r ∈ logs)
  ∧ (∀ es,
       filtered_logs (run new_LogsComponent es)
         `sublist_of` all_logs (run new_LogsComponent es)).
Proof.
  split.
  - intros this logs qs final.
    assert (Hall : all_logs final = logs).
    { unfold final. by rewrite all_logs_searches. }
    assert (Hsub : filtered_logs final `sublist_of` logs).
    { rewrite <- Hall. apply filtered_within_run. by unfold filtered_within. }
    split; [done | split; [done|]].
    intros r Hr. by eapply elem_of_sublist.
  - intros es. apply filtered_within_run. by unfold filtered_within.
Qed.

(** C5: a second [onSearch] with the same query leaves
    [filtered_logs] as the first call left it. *)
Theorem onSearch_twice this query :
  filtered_logs (onSearch (onSearch this query) query) =
    filtered_logs (onSearch this query).
Proof. by rewrite onSearch_idem. Qed.

(** C6: matching ignores case. When the host's lower-casing is
    idempotent, the result for an accepted query is the list of
    records that match its lower-cased form, and it is the result of
    [onSearch] on the lower-cased query whenever that one is accepted
    too; a record is kept exactly when its lower-cased text contains
    the lower-cased query as a contiguous run, with nothing else done
    to either; and [ErrorFoo] is found by both [foo] and [FOO]. *)
Theorem matching_ignores_case :
  ((∀ s, toLowerCase (toLowerCase s) = toLowerCase s) →
   ∀ this query,
     accepted this query →
     filtered_logs (onSearch this query) =
       filter
         (λ r, includes (toLowerCase (raw_log r))
                 (toLowerCase (toLowerCase query)))
         (all_logs this)
     ∧ (accepted this (toLowerCase query) →
        filtered_logs (onSearch this query) =
          filtered_logs (onSearch this (toLowerCase query))))
  ∧ (∀ this query r,
       accepted this query →
       r ∈ filtered_logs (onSearch this query) ↔
         r ∈ all_logs this ∧
         ∃ pre post,
           toLowerCase (raw_log r) = pre ++ toLowerCase query ++ post)
  ∧ search1 [log "ErrorFoo"] "foo" = [log "ErrorFoo"]
  ∧ search1 [log "ErrorFoo"] "FOO" = [log "ErrorFoo"].
Proof.
  split; [|split; [|split; by vm_compute]].
  - intros Hidem this query Hacc. split.
    + rewrite onSearch_accepted by done. simpl.
      unfold matches. by rewrite Hidem.
    + intros Hacc'. rewrite !onSearch_accepted by done. simpl.
      unfold matches. by rewrite Hidem.
  - intros this query r Hacc. by apply elem_of_accepted.
Qed.

(** C7: [onSearch] leaves [all_logs], [isLoading] and [title] as they
    were; only [filtered_logs] and [searchQuery] can change. *)
Theorem onSearch_frame this query :
  all_logs (onSearch this query) = all_logs this
  ∧ isLoading (onSearch this query) = isLoading this
  ∧ title (onSearch this query) = title this.
Proof. onSearch_paths this query; done. Qed.

(** C8: when the fetch delivers [logs], the callback stores [logs] in
    both [all_logs] and [filtered_logs] and clears [isLoading],
    whatever the state was. *)
Theorem getLogs_next_loads this logs :
  all_logs (getLogs_next logs this) = logs
  ∧ filtered_logs (getLogs_next logs this) = logs
  ∧ isLoading (getLogs_next logs this) = false.
Proof. done. Qed.

(** C9: in every state reached from the initial one, [searchQuery] is
    empty or has at least three code units; a query that takes the
    short path leaves [searchQuery] alone. *)
Theorem searchQuery_never_short :
  (∀ es,
     let final := run new_LogsComponent es in
     searchQuery final = [] ∨ 3 ≤ length (searchQuery final))
  ∧ (∀ this query,
       length query < 3 →
       searchQuery (onSearch this query) = searchQuery this).
Proof.
  split.
  - intros es. apply stored_query_long_run. by left.
  - intros this query Hlen. by rewrite onSearch_short.
Qed.

(** C10: an accepted query is stored and matched as passed in, not
    trimmed, so its outer white space counts: on the one record
    [xabc] the query [ abc] (leading space) keeps nothing, while its
    trimmed form [abc] keeps the record. *)
Theorem whitespace_counts :
  (∀ this query,
     accepted this query →
     searchQuery (onSearch this query) = query
     ∧ filtered_logs (onSearch this query) =
         filter (λ r, includes (toLowerCase (raw_log r)) (toLowerCase query))
           (all_logs this))
  ∧ trim (utf16 " abc") = utf16 "abc"
  ∧ search1 [log "xabc"] " abc" = []
  ∧ search1 [log "xabc"] "abc" = [log "xabc"].
Proof.
  split; [|split; [|split]; by vm_compute].
  intros this query Hacc. by rewrite onSearch_accepted.
Qed.

(** ** Beyond the search contract *)

Lemma title_onSearch this query : title (onSearch this query) = title this.
Proof. onSearch_paths this query; done. Qed.

Lemma isLoading_onSearch this query :
  isLoading (onSearch this query) = isLoading this.
Proof. onSearch_paths this query; done. Qed.

Lemma run_app this es es' : run this (es ++ es') = run (run this es) es'.
Proof.
  revert this. induction es as [|e es IH]; intros this; [done|].
  change ((e :: es) ++ es') with (e :: (es ++ es')).
  by rewrite !run_cons, IH.
Qed.

Lemma run_searches this (qs : list jsstring) :
  run this (map OnSearch qs) = foldl onSearch this qs.
Proof.
  revert this. induction qs as [|q qs IH]; intros this; [done|].
  rewrite fmap_cons, run_cons. apply IH.
Qed.

Lemma searchQuery_after this query :
  3 ≤ length query → trim query = query →
  searchQuery (onSearch this query) = query.
Proof.
  intros Hlen Htrim.
  destruct (decide (query = searchQuery this)) as [Heq | Hne].
  - rewrite onSearch_same; [done | done | congruence].
  - rewrite onSearch_accepted; [done|]. split; [done | congruence].
Qed.

Lemma shown_consistent_step this e :
  shown_consistent raw_log toLowerCase this →
  shown_consistent raw_log toLowerCase (step this e).
Proof.
  unfold shown_consistent. intros Hinv. destruct e as [|logs|query]; simpl.
  - done.
  - by left.
  - onSearch_paths this query; simpl; [by left | done | by right].
Qed.

Lemma distinct_foldl (values : list jsstring) :
  ∀ previousKey this,
    (∀ p, previousKey = Some p → onSearch this p = this) →
    foldl onSearch this (distinctUntilChanged_from previousKey values)
      = foldl onSearch this values.
Proof.
  induction values as [|v values IH]; intros prev this Hprev; simpl; [done|].
  destruct (decide (prev = Some v)) as [Heq | Hne].
  - rewrite (Hprev v Heq). by apply IH.
  - simpl. apply IH. intros p [= <-]. apply onSearch_idem.
Qed.


(** X3: no event changes [title]: it is [Logs] in every state reached
    from the initial one. *)
Theorem title_constant this es :
  title (run this es) = title this
  ∧ title (run new_LogsComponent es) = utf16 "Logs".
Proof.
  assert (Hrun : ∀ es this, title (run this es) = title this).
  { clear. intros es. induction es as [|e es IH]; intros this; [done|].
    rewrite run_cons, IH. destruct e as [|logs|query]; simpl; try done.
    apply title_onSearch. }
  split; [apply Hrun | by rewrite Hrun].
Qed.

(** X4: [isLoading] follows the fetch and nothing else: searches leave
    it alone, it is false after a delivery and true after [ngOnInit],
    whatever came before. *)
Theorem isLoading_follows_fetch this es logs (qs : list jsstring) :
  isLoading (run this (map OnSearch qs)) = isLoading this
  ∧ isLoading (run this (es ++ GetLogsNext logs :: map OnSearch qs)) = false
  ∧ isLoading (run this (es ++ NgOnInit :: map OnSearch qs)) = true.
Proof.
  assert (Hqs : ∀ qs this, isLoading (run this (map OnSearch qs))
                           = isLoading this).
  { clear. intros qs. induction qs as [|q qs IH]; intros this; [done|].
    rewrite fmap_cons, run_cons, IH. apply isLoading_onSearch. }
  split; [apply Hqs | split]; by rewrite run_app, run_cons, Hqs.
Qed.

(** X5: a delivery does not re-apply the search. When a trimmed query
    of three code units or more has been searched, the fetch delivers
    [logs] and the same query comes again, [onSearch] returns early
    and the whole of [logs] stays on display. *)
Theorem search_not_reapplied_after_fetch this query logs :
  3 ≤ length query → trim query = query →
  filtered_logs (onSearch (getLogs_next logs (onSearch this query)) query)
    = logs
  ∧ searchQuery (onSearch (getLogs_next logs (onSearch this query)) query)
    = query.
Proof.
  intros Hlen Htrim.
  rewrite (onSearch_same (getLogs_next logs (onSearch this query)) query).
  - simpl. split; [done | by apply searchQuery_after].
  - done.
  - simpl. by rewrite searchQuery_after.
Qed.

(** X6: a short query does not reset the stored one. After a trimmed
    query of three code units or more, a query of fewer than three and
    the first query again, the full list is on display. *)
Theorem repeat_after_short_shows_all this query short :
  3 ≤ length query → trim query = query → length short < 3 →
  filtered_logs (onSearch (onSearch (onSearch this query) short) query)
    = all_logs this.
Proof.
  intros Hlen Htrim Hshort.
  rewrite (onSearch_short (onSearch this query) short) by done.
  rewrite onSearch_same; simpl.
  - apply all_logs_onSearch.
  - done.
  - by rewrite searchQuery_after.
Qed.

(** X7: a longer query narrows the result. When [query'] is accepted
    right after [query] and the lower-cased [query'] contains the
    lower-cased [query], every record shown for [query'] was shown for
    [query], in the same order. *)
Theorem refined_query_narrows this query query' :
  accepted this query →
  accepted (onSearch this query) query' →
  includes (toLowerCase query') (toLowerCase query) = true →
  filtered_logs (onSearch (onSearch this query) query')
    `sublist_of` filtered_logs (onSearch this query).
Proof.
  intros Hacc Hacc' Hinc.
  rewrite (onSearch_accepted (onSearch this query) query') by done.
  rewrite (onSearch_accepted this query) by done. simpl.
  apply filter_sublist_impl. intros r. unfold matches.
  rewrite !Is_true_true. intros Hr. by eapply includes_trans.
Qed.

(** X8: the test against the stored query is sound where the state is
    in step with it. If the list on display is the matches of the
    stored query, and the query equals the stored one whenever its
    trimmed form does, [onSearch] ends in the state that recomputing
    on every call gives. *)
Theorem stored_query_test_sound this query :
  filtered_logs this
    = filter (λ log, matches raw_log toLowerCase (searchQuery this) log)
        (all_logs this) →
  (trim query = searchQuery this → query = searchQuery this) →
  onSearch this query = onSearch_recompute this query.
Proof.
  intros Hshown Htrim. rewrite onSearch_recompute_unfold.
  onSearch_paths this query.
  - by rewrite decide_True.
  - rewrite decide_False by lia.
    rewrite (Htrim Hsame), <- Hshown. by destruct this.
  - destruct Hacc as [Hlen Hne]. by rewrite decide_False by lia.
Qed.

(** X9: in every state reached from the initial one the list on
    display is the full list or exactly the matches of the stored
    query. *)
Theorem shown_full_or_matches es :
  let final := run new_LogsComponent es in
  filtered_logs final = all_logs final
  ∨ filtered_logs final
      = filter (λ log, matches raw_log toLowerCase (searchQuery final) log)
          (all_logs final).
Proof.
  assert (Hrun : ∀ es this,
    shown_consistent raw_log toLowerCase this →
    shown_consistent raw_log toLowerCase (run this es)).
  { clear. intros es. induction es as [|e es IH]; intros this Hinv; [done|].
    rewrite run_cons. apply IH. by apply shown_consistent_step. }
  apply (Hrun es new_LogsComponent). by left.
Qed.

(** X10: until the fetch delivers, every search shows the empty
    list. *)
Theorem nothing_shown_before_fetch (qs : list jsstring) :
  filtered_logs (run new_LogsComponent (NgOnInit :: map OnSearch qs)) = []
  ∧ all_logs (run new_LogsComponent (NgOnInit :: map OnSearch qs)) = [].
Proof.
  rewrite run_cons.
  set (final := run _ _).
  assert (Hall : all_logs final = []).
  { unfold final. by rewrite all_logs_searches. }
  split; [|done].
  assert (Hsub : filtered_logs final `sublist_of` all_logs final).
  { apply filtered_within_run. by unfold filtered_within. }
  rewrite Hall in Hsub. by apply sublist_nil_r.
Qed.

(** X11: the stored query is never made up: after any events it is
    the one the component started with or one of the queries passed to
    [onSearch], as passed. *)
Theorem searchQuery_was_passed es : ∀ this,
  searchQuery (run this es) = searchQuery this
  ∨ OnSearch (searchQuery (run this es)) ∈ es.
Proof.
  induction es as [|e es IH]; intros this; [by left|].
  rewrite run_cons.
  destruct (IH (step this e)) as [Heq | Hin];
    [|right; by apply list_elem_of_further].
  rewrite Heq. destruct e as [|logs|query]; simpl; [by left | by left |].
  onSearch_paths this query; simpl; [by left | by left |].
  right. apply list_elem_of_here.
Qed.

(** X12: a stored query with outer white space never equals a trimmed
    query, so every later query of three code units or more is
    recomputed, the stored one included. *)
Theorem untrimmed_stored_query_always_recomputes this query :
  trim (searchQuery this) ≠ searchQuery this →
  3 ≤ length query →
  accepted this query
  ∧ filtered_logs (onSearch this query)
      = filter (λ log, matches raw_log toLowerCase query log) (all_logs this).
Proof.
  intros Hsq Hlen.
  assert (Hacc : accepted this query).
  { split; [done|]. intros Heq. apply Hsq. rewrite <- Heq. apply trim_idem. }
  split; [done|]. by rewrite onSearch_accepted.
Qed.

(** X13: a query of white space only, three code units or more, is
    ignored while the stored query is empty; once a query is stored it
    is accepted and stored as passed. *)
Theorem blank_query this query :
  forallb isWhiteSpace query = true → 3 ≤ length query →
  (searchQuery this = [] → onSearch this query = this)
  ∧ (searchQuery this ≠ [] →
     searchQuery (onSearch this query) = query
     ∧ filtered_logs (onSearch this query)
         = filter (λ log, matches raw_log toLowerCase query log)
             (all_logs this)).
Proof.
  intros Hblank Hlen. pose proof (trim_blank query Hblank) as Htrim. split.
  - intros Hsq. apply onSearch_same; [done | congruence].
  - intros Hsq. rewrite onSearch_accepted; [done|].
    split; [done | congruence].
Qed.

End Properties.

(** ** The contract on concrete runs *)

Example search_no_match : search1 [log "abc"] "xyz" = [].
Proof. by vm_compute. Qed.

Example search_below_threshold : search1 scenario_logs "in" = scenario_logs.
Proof. by vm_compute. Qed.

Example search_empty : search1 scenario_logs "" = scenario_logs.
Proof. by vm_compute. Qed.

Example search_blank_on_fresh : search1 scenario_logs "   " = scenario_logs.
Proof. by vm_compute. Qed.

(** C1, as stated with the trimmed length, fails: the query of five
    code units [  a  ] trims to one code unit, yet [onSearch] filters
    with it and the record [xyz] is dropped. *)
Lemma trimmed_short_query_still_filters :
  length (trim (utf16 "  a  ")) < 3
  ∧ filtered_logs (onSearch_latin (fresh [log "xyz"]) (utf16 "  a  "))
      ≠ all_logs (fresh [log "xyz"]).
Proof. split; vm_compute; [lia | discriminate]. Qed.

Lemma short_query_shows_all_witness :
  length (utf16 "in") < 3
  ∧ filtered_logs (onSearch_latin (fresh scenario_logs) (utf16 "in"))
      = all_logs (fresh scenario_logs).
Proof.
  split; [vm_compute; lia|].
  apply (short_query_shows_all line_raw_log toLowerCase_latin
           (fresh scenario_logs) (utf16 "in")).
  vm_compute; lia.
Defined.

Lemma accepted_fresh_error : accepted (fresh scenario_logs) (utf16 "error").
Proof. split; vm_compute; [lia | discriminate]. Defined.

Lemma accepted_query_filters_witness :
  accepted (fresh scenario_logs) (utf16 "error")
  ∧ filtered_logs (onSearch_latin (fresh scenario_logs) (utf16 "error"))
      = filter
          (λ r, includes (toLowerCase_latin (line_raw_log r))
                  (toLowerCase_latin (utf16 "error")))
          (all_logs (fresh scenario_logs)).
Proof.
  split; [exact accepted_fresh_error|].
  exact (proj1 (proj1 (accepted_query_filters line_raw_log toLowerCase_latin)
                  (fresh scenario_logs) (utf16 "error") accepted_fresh_error)).
Defined.

Lemma filtered_logs_subsequence_witness :
  log "ERROR disk full"
    ∈ filtered_logs
        (run line_raw_log toLowerCase_latin
           (getLogs_next scenario_logs new_LogsComponent)
           (map OnSearch [utf16 "error"; utf16 "er"; utf16 "disk"]))
  ∧ log "ERROR disk full" ∈ scenario_logs.
Proof.
  assert (Hin : log "ERROR disk full"
    ∈ filtered_logs
        (run line_raw_log toLowerCase_latin
           (getLogs_next scenario_logs new_LogsComponent)
           (map OnSearch [utf16 "error"; utf16 "er"; utf16 "disk"]))).
  { vm_compute. apply list_elem_of_here. }
  split; [exact Hin|].
  exact (proj2 (proj2 (proj1
           (filtered_logs_subsequence line_raw_log toLowerCase_latin)
           new_LogsComponent scenario_logs
           [utf16 "error"; utf16 "er"; utf16 "disk"]))
           (log "ERROR disk full") Hin).
Defined.

(** C4: the test against the stored query is not a pure shortcut.
    After [abc], the short query [ab] and [abc] again, the third call
    returns early because [searchQuery] is still [abc], and the full
    list set by the second call stays on display; recomputing on every
    call would show the one matching record. *)
Theorem stored_query_test_keeps_stale_result :
  let logs := [log "abcdef"; log "xyz"] in
  let qs := [utf16 "abc"; utf16 "ab"; utf16 "abc"] in
  filtered_logs (foldl onSearch_latin (fresh logs) qs) = logs
  ∧ filtered_logs (foldl onSearch_recompute_latin (fresh logs) qs)
      = [log "abcdef"].
Proof. split; by vm_compute. Qed.

Lemma accepted_fresh_FOO :
  accepted (fresh [log "ErrorFoo"]) (utf16 "FOO")
  ∧ accepted (fresh [log "ErrorFoo"]) (toLowerCase_latin (utf16 "FOO")).
Proof. repeat split; vm_compute; solve [lia | discriminate]. Defined.

Lemma matching_ignores_case_witness :
  (accepted (fresh [log "ErrorFoo"]) (utf16 "FOO")
   ∧ accepted (fresh [log "ErrorFoo"]) (toLowerCase_latin (utf16 "FOO")))
  ∧ filtered_logs (onSearch_latin (fresh [log "ErrorFoo"]) (utf16 "FOO"))
      = filtered_logs
          (onSearch_latin (fresh [log "ErrorFoo"])
             (toLowerCase_latin (utf16 "FOO"))).
Proof.
  split; [exact accepted_fresh_FOO|].
  exact (proj2 (proj1 (matching_ignores_case line_raw_log toLowerCase_latin)
                  toLowerCase_latin_idem (fresh [log "ErrorFoo"]) (utf16 "FOO")
                  (proj1 accepted_fresh_FOO))
           (proj2 accepted_fresh_FOO)).
Defined.

Lemma searchQuery_never_short_witness :
  length (utf16 "ab") < 3
  ∧ searchQuery
      (onSearch_latin (onSearch_latin (fresh scenario_logs) (utf16 "info"))
         (utf16 "ab"))
      = searchQuery (onSearch_latin (fresh scenario_logs) (utf16 "info")).
Proof.
  assert (Hlen : length (utf16 "ab") < 3) by (vm_compute; lia).
  split; [exact Hlen|].
  exact (proj2 (searchQuery_never_short line_raw_log toLowerCase_latin)
           (onSearch_latin (fresh scenario_logs) (utf16 "info"))
           (utf16 "ab") Hlen).
Defined.

Lemma accepted_fresh_space_abc : accepted (fresh [log "xabc"]) (utf16 " abc").
Proof. split; vm_compute; [lia | discriminate]. Defined.

Lemma whitespace_counts_witness :
  accepted (fresh [log "xabc"]) (utf16 " abc")
  ∧ searchQuery (onSearch_latin (fresh [log "xabc"]) (utf16 " abc"))
      = utf16 " abc".
Proof.
  split; [exact accepted_fresh_space_abc|].
  exact (proj1 (proj1 (whitespace_counts line_raw_log toLowerCase_latin)
                  (fresh [log "xabc"]) (utf16 " abc")
                  accepted_fresh_space_abc)).
Defined.

(** ** The search box and the other events on concrete runs *)

(** X2: what [distinctUntilChanged()] hands on is a sub-sequence of
    what it receives, starts with the same value, and never holds the
    same value twice in a row: [onSearch] is not called twice running
    with one query. *)
Theorem distinct_values_never_repeat (values : list jsstring) :
  distinctUntilChanged values `sublist_of` values
  ∧ head (distinctUntilChanged values) = head values
  ∧ ∀ i (v w : jsstring),
      distinctUntilChanged values !! i = Some v →
      distinctUntilChanged values !! S i = Some w →
      v ≠ w.
Proof.
  split; [apply distinctUntilChanged_from_sublist | split].
  - by destruct values.
  - intros i v w. apply distinctUntilChanged_from_adjacent.
Qed.

Lemma distinct_values_never_repeat_witness :
  distinctUntilChanged [utf16 "abc"; utf16 "abc"; utf16 "abd"; utf16 "abc"]
    !! 0 = Some (utf16 "abc")
  ∧ distinctUntilChanged [utf16 "abc"; utf16 "abc"; utf16 "abd"; utf16 "abc"]
      !! 1 = Some (utf16 "abd")
  ∧ utf16 "abc" ≠ utf16 "abd".
Proof.
  assert (H0 : distinctUntilChanged
                 [utf16 "abc"; utf16 "abc"; utf16 "abd"; utf16 "abc"]
                 !! 0 = Some (utf16 "abc")) by (vm_compute; reflexivity).
  assert (H1 : distinctUntilChanged
                 [utf16 "abc"; utf16 "abc"; utf16 "abd"; utf16 "abc"]
                 !! 1 = Some (utf16 "abd")) by (vm_compute; reflexivity).
  split; [exact H0 | split; [exact H1|]].
  exact (proj2 (proj2 (distinct_values_never_repeat
           [utf16 "abc"; utf16 "abc"; utf16 "abd"; utf16 "abc"]))
           0 (utf16 "abc") (utf16 "abd") H0 H1).
Defined.

Lemma error_is_trimmed :
  3 ≤ length (utf16 "error") ∧ trim (utf16 "error") = utf16 "error".
Proof. split; vm_compute; [lia | reflexivity]. Defined.

Lemma search_not_reapplied_after_fetch_witness :
  (3 ≤ length (utf16 "error") ∧ trim (utf16 "error") = utf16 "error")
  ∧ filtered_logs
      (onSearch_latin
         (getLogs_next scenario_logs
            (onSearch_latin (ngOnInit new_LogsComponent) (utf16 "error")))
         (utf16 "error"))
      = scenario_logs.
Proof.
  split; [exact error_is_trimmed|].
  exact (proj1 (search_not_reapplied_after_fetch
                  line_raw_log toLowerCase_latin
                  (ngOnInit new_LogsComponent) (utf16 "error") scenario_logs
                  (proj1 error_is_trimmed) (proj2 error_is_trimmed))).
Defined.

Lemma repeat_after_short_shows_all_witness :
  length (utf16 "er") < 3
  ∧ filtered_logs
      (onSearch_latin
         (onSearch_latin
            (onSearch_latin (fresh scenario_logs) (utf16 "error"))
            (utf16 "er"))
         (utf16 "error"))
      = scenario_logs.
Proof.
  assert (Hshort : length (utf16 "er") < 3) by (vm_compute; lia).
  split; [exact Hshort|].
  exact (repeat_after_short_shows_all line_raw_log toLowerCase_latin
           (fresh scenario_logs) (utf16 "error") (utf16 "er")
           (proj1 error_is_trimmed) (proj2 error_is_trimmed) Hshort).
Defined.

Lemma accepted_inf_then_info :
  accepted (fresh scenario_logs) (utf16 "inf")
  ∧ accepted (onSearch_latin (fresh scenario_logs) (utf16 "inf"))
      (utf16 "info")
  ∧ includes (toLowerCase_latin (utf16 "info"))
      (toLowerCase_latin (utf16 "inf")) = true.
Proof.
  repeat split; vm_compute; solve [lia | discriminate | reflexivity].
Defined.

Lemma refined_query_narrows_witness :
  accepted (fresh scenario_logs) (utf16 "inf")
  ∧ filtered_logs
      (onSearch_latin (onSearch_latin (fresh scenario_logs) (utf16 "inf"))
         (utf16 "info"))
      `sublist_of`
      filtered_logs (onSearch_latin (fresh scenario_logs) (utf16 "inf")).
Proof.
  split; [exact (proj1 accepted_inf_then_info)|].
  exact (refined_query_narrows line_raw_log toLowerCase_latin
           (fresh scenario_logs) (utf16 "inf") (utf16 "info")
           (proj1 accepted_inf_then_info)
           (proj1 (proj2 accepted_inf_then_info))
           (proj2 (proj2 accepted_inf_then_info))).
Defined.

Lemma stored_query_test_sound_witness :
  filtered_logs (onSearch_latin (fresh scenario_logs) (utf16 "error"))
    = [log "ERROR disk full"]
  ∧ onSearch_latin (onSearch_latin (fresh scenario_logs) (utf16 "error"))
      (utf16 "error")
    = onSearch_recompute_latin
        (onSearch_latin (fresh scenario_logs) (utf16 "error"))
        (utf16 "error").
Proof.
  split; [vm_compute; reflexivity|].
  apply (stored_query_test_sound line_raw_log toLowerCase_latin
           (onSearch_latin (fresh scenario_logs) (utf16 "error"))
           (utf16 "error")).
  - vm_compute; reflexivity.
  - intros _. vm_compute; reflexivity.
Defined.

Lemma untrimmed_stored_query_always_recomputes_witness :
  trim (searchQuery (onSearch_latin (fresh [log "xabc"]) (utf16 " abc")))
    ≠ searchQuery (onSearch_latin (fresh [log "xabc"]) (utf16 " abc"))
  ∧ accepted (onSearch_latin (fresh [log "xabc"]) (utf16 " abc"))
      (utf16 " abc").
Proof.
  assert (Hsq :
    trim (searchQuery (onSearch_latin (fresh [log "xabc"]) (utf16 " abc")))
    ≠ searchQuery (onSearch_latin (fresh [log "xabc"]) (utf16 " abc")))
    by (vm_compute; discriminate).
  assert (Hlen : 3 ≤ length (utf16 " abc")) by (vm_compute; lia).
  split; [exact Hsq|].
  exact (proj1 (untrimmed_stored_query_always_recomputes
                  line_raw_log toLowerCase_latin
                  (onSearch_latin (fresh [log "xabc"]) (utf16 " abc"))
                  (utf16 " abc") Hsq Hlen)).
Defined.

Lemma blank_query_witness :
  (forallb isWhiteSpace (utf16 "   ") = true ∧ 3 ≤ length (utf16 "   "))
  ∧ onSearch_latin (fresh scenario_logs) (utf16 "   ") = fresh scenario_logs.
Proof.
  assert (Hblank : forallb isWhiteSpace (utf16 "   ") = true)
    by (vm_compute; reflexivity).
  assert (Hlen : 3 ≤ length (utf16 "   ")) by (vm_compute; lia).
  split; [by split|].
  exact (proj1 (blank_query line_raw_log toLowerCase_latin
                  (fresh scenario_logs) (utf16 "   ") Hblank Hlen)
           eq_refl).
Defined.
